(** * V-trace targets and the IMPALA loss (src/VTrace.py, src/IMPALA.py)

    A shallow embedding of the two modules of the repository.

    - Floating-point tensors are idealised: a scalar is a real number and
      [torch.exp], [torch.min], [+], [-], [*] are the real functions.
    - A tensor of shape [T, B] is a record of its batch width and of its
      rows, time-major.  Indexing, broadcasting and in-place assignment can
      raise, as they do in PyTorch, so the code lives in an exception monad.
    - Device placement ([.cuda()], [.cpu()], [.to(...)]) and the autograd
      graph ([detach_], [detach]) do not change values and are identities. *)

From Stdlib Require Import Reals Lra Lia.
From stdpp Require Import base list strings.

#[local] Open Scope R_scope.

(** ** Python exceptions and the exception monad *)

Inductive exn : Type :=
  | AssertionError
  | AttributeError
  | IndexError
  | RuntimeError
  | TypeError.

Inductive result (A : Type) : Type :=
  | Ok (a : A)
  | Raise (e : exn).
Arguments Ok {A} a.
Arguments Raise {A} e.

#[global] Instance result_ret : MRet result := fun A a => Ok a.
#[global] Instance result_bind : MBind result := fun A B f m =>
  match m with
  | Ok a => f a
  | Raise e => Raise e
  end.

(** Comparisons of scalars are decided, as the code decides them. *)
#[global] Instance Rge_decision : RelDecision Rge := Rge_dec.

(** [assert c] of Python. *)
Definition py_assert (c : bool) : result unit :=
  if c then Ok tt else Raise AssertionError.

(** Monadic left fold: the body of a [for] loop run over the list of its
    indices, the first exception ending the loop. *)
Fixpoint for_loop {S : Type} (body : nat -> S -> result S) (idx : list nat) (s : S)
  : result S :=
  match idx with
  | [] => Ok s
  | i :: idx' => s' ← body i s; for_loop body idx' s'
  end.

(** [reversed(range(n))]. *)
Definition reversed_range (n : nat) : list nat := rev (seq 0 n).

(** ** Calls by keyword

    Python binds the keywords of a call to the parameters of the function
    before the body runs: a keyword that names no parameter, or a parameter
    left without a value, raises [TypeError]. *)

Inductive pyval : Type :=
  | PyInt (n : Z)
  | PyFloat (x : R).

Definition kwargs : Type := list (string * pyval).

Fixpoint kw_lookup (name : string) (kw : kwargs) : option pyval :=
  match kw with
  | [] => None
  | (k, v) :: kw' => if String.eqb k name then Some v else kw_lookup name kw'
  end.

Fixpoint bind_each (params : list string) (kw : kwargs) : result (list pyval) :=
  match params with
  | [] => Ok []
  | p :: params' =>
      match kw_lookup p kw with
      | Some v => vs ← bind_each params' kw; Ok (v :: vs)
      | None => Raise TypeError
      end
  end.

Definition bind_keywords (params : list string) (kw : kwargs) : result (list pyval) :=
  if forallb (fun kv => existsb (String.eqb (fst kv)) params) kw
  then bind_each params kw
  else Raise TypeError.

(** ** Tensors *)

Abbreviation row := (list R).

Record tensor : Type := Tensor { width : nat; rows : list row }.

Definition size0 (t : tensor) : nat := length (rows t).

(** Every row of a tensor has the width of the tensor. *)
Definition wf_tensor (t : tensor) : Prop :=
  Forall (fun r => length r = width t) (rows t).

Definition has_shape (t : tensor) (T B : nat) : Prop :=
  size0 t = T /\ width t = B /\ wf_tensor t.

(** The entry of a row at batch position [b], and the element of a tensor
    at time [i] and batch position [b] (0 out of range). *)
Definition row_at (r : row) (b : nat) : R := default 0 (r !! b).

Definition at2 (t : tensor) (i b : nat) : R :=
  match rows t !! i with
  | Some r => row_at r b
  | None => 0
  end.

(** [torch.zeros(size)] *)
Definition zeros (T B : nat) : tensor := Tensor B (replicate T (replicate B 0)).

(** Broadcasting of one dimension: equal sizes, or one of them is 1. *)
Definition broadcast_dim (n m : nat) : result nat :=
  if (n =? m)%nat then Ok n
  else if (n =? 1)%nat then Ok m
  else if (m =? 1)%nat then Ok n
  else Raise RuntimeError.

(** A list of [n] entries, or of one entry repeated, expanded to [n]. *)
Definition expand {A : Type} (n : nat) (l : list A) : list A :=
  match l with
  | [x] => replicate n x
  | _ => l
  end.

(** Elementwise binary operation on rows (1-d tensors), with broadcasting. *)
Definition row_op (f : R -> R -> R) (x y : row) : result row :=
  n ← broadcast_dim (length x) (length y);
  Ok (zip_with f (expand n x) (expand n y)).

(** A 0-d tensor (scalar) times a row. *)
Definition scalar_mul (a : R) (x : row) : row := Rmult a <$> x.

(** Elementwise binary operation on [T, B] tensors, with broadcasting. *)
Definition tensor_op (f : R -> R -> R) (x y : tensor) : result tensor :=
  T ← broadcast_dim (size0 x) (size0 y);
  B ← broadcast_dim (width x) (width y);
  Ok (Tensor B (zip_with (fun r s => zip_with f (expand B r) (expand B s))
                         (expand T (rows x)) (expand T (rows y)))).

Definition tensor_map (f : R -> R) (x : tensor) : tensor :=
  Tensor (width x) (fmap (M := list) f <$> rows x).

(** [t[i]] for [0 <= i]. *)
Definition getitem (t : tensor) (i : nat) : result row :=
  match rows t !! i with
  | Some r => Ok r
  | None => Raise IndexError
  end.

(** [t[-1]] *)
Definition getitem_last (t : tensor) : result row :=
  match last (rows t) with
  | Some r => Ok r
  | None => Raise IndexError
  end.

(** [t[i] = r]: the right-hand side is broadcast to the row's shape. *)
Definition setitem (t : tensor) (i : nat) (r : row) : result tensor :=
  if (i <? size0 t)%nat then
    if (length r =? width t)%nat then Ok (Tensor (width t) (<[i := r]> (rows t)))
    else match r with
         | [x] => Ok (Tensor (width t) (<[i := replicate (width t) x]> (rows t)))
         | _ => Raise RuntimeError
         end
  else Raise IndexError.

(** [t[-1] = r] *)
Definition setitem_last (t : tensor) (r : row) : result tensor :=
  if (0 <? size0 t)%nat then setitem t (size0 t - 1) r else Raise IndexError.

(** [t[:-1]] and [t[1:]] *)
Definition drop_last (t : tensor) : tensor :=
  Tensor (width t) (take (size0 t - 1) (rows t)).
Definition drop_first (t : tensor) : tensor :=
  Tensor (width t) (drop 1 (rows t)).

(** [t.sum()] *)
Definition row_sum (r : row) : R := foldr Rplus 0 r.
Definition tensor_sum (t : tensor) : R := foldr Rplus 0 (row_sum <$> rows t).

(** ** src/VTrace.py *)

Module VTrace.

(** The attributes [__init__] stores (0-d tensors). *)
Record t : Type := Make { rho : R; cis : R; discount_factor : R }.

(** [VTrace.__init__(self, discount_factor, rho, cis)] *)
Definition init (discount_factor rho cis : R) : result t :=
  _ ← py_assert (bool_decide (rho >= cis));
  Ok (Make rho cis discount_factor).

(** The parameters of [__init__] after [self]. *)
Definition params : list string := ["discount_factor"; "rho"; "cis"]%string.

(** The number a Python [int] or [float] stands for. *)
Definition to_real (v : pyval) : R :=
  match v with
  | PyInt n => IZR n
  | PyFloat x => x
  end.

(** [VTrace(k1=v1, ...)]: the class called with keywords. *)
Definition new (kw : kwargs) : result t :=
  args ← bind_keywords params kw;
  match args with
  | [g; r; c] => init (to_real g) (to_real r) (to_real c)
  | _ => Raise TypeError
  end.

(** [torch.exp(target_log_policy - behaviour_log_policy)] *)
Definition importance_sampling (target_log_policy behaviour_log_policy : tensor)
  : result tensor :=
  d ← tensor_op Rminus target_log_policy behaviour_log_policy;
  Ok (tensor_map exp d).

(** [torch.min(bar, importance_sampling)] for a 0-d tensor [bar]. *)
Definition truncate (bar : R) (importance_sampling : tensor) : tensor :=
  tensor_map (Rmin bar) importance_sampling.

(** One iteration of the backward loop, lines 74-75:
    [delta = rhos[i] * (rewards[i] + g * target_value[i+1] - target_value[i])]
    [vtrace[i] = target_value[i] + delta
                 + g * ciss[i] * (vtrace[i+1] - target_value[i+1])] *)
Definition loop_body (self : t) (target_value rewards rhos ciss : tensor)
    (i : nat) (vtrace : tensor) : result tensor :=
  rho_i ← getitem rhos i;
  r_i ← getitem rewards i;
  tv_i1 ← getitem target_value (i + 1);
  a ← row_op Rplus r_i (scalar_mul (discount_factor self) tv_i1);
  tv_i ← getitem target_value i;
  td ← row_op Rminus a tv_i;
  delta ← row_op Rmult rho_i td;
  tv_i ← getitem target_value i;
  x ← row_op Rplus tv_i delta;
  c_i ← getitem ciss i;
  v_i1 ← getitem vtrace (i + 1);
  tv_i1 ← getitem target_value (i + 1);
  e ← row_op Rminus v_i1 tv_i1;
  y ← row_op Rmult (scalar_mul (discount_factor self) c_i) e;
  z ← row_op Rplus x y;
  setitem vtrace i z.

(** [VTrace.forward]; the pair returned is [(vtrace, rhos)]. *)
Definition forward (self : t)
    (target_value rewards target_log_policy behaviour_log_policy : tensor)
  : result (tensor * tensor) :=
  let size_0 := size0 target_value in
  let vtrace := zeros size_0 (width target_value) in
  importance_sampling ← importance_sampling target_log_policy behaviour_log_policy;
  let rhos := truncate (rho self) importance_sampling in
  let ciss := truncate (cis self) importance_sampling in
  boot ← getitem_last target_value;
  vtrace ← setitem_last vtrace boot;
  vtrace ← for_loop (loop_body self target_value rewards rhos ciss)
                    (reversed_range (size_0 - 1)) vtrace;
  Ok (vtrace, rhos).

End VTrace.

(** ** src/IMPALA.py *)

Module Impala.

Section WithModel.

(** The payloads the model consumes are opaque to the loss: a frame of
    observations per time step, the recorded actions, the reset mask and
    the recurrent state. *)
Context {Frame Actions Mask Hidden : Type}.

(** [self.model(obs=, lstm_hxs=, mask=, behaviour_actions=)] returns
    [(target_log_probs, target_entropy, target_value)] or raises. *)
Definition model_t : Type :=
  list Frame -> Hidden -> Mask -> Actions -> result (tensor * tensor * tensor).

(** The attributes [__init__] assigns.  [discount_factor] is annotated in
    the class body but no statement assigns it. *)
Record t : Type := Make {
  device : string;
  model : model_t;
  entropy_coef : R;
  value_coef : R;
  sequence_length : nat;
  vtrace : VTrace.t
}.

(** [Impala.__init__] *)
Definition init (sequence_length : nat) (entropy_coef value_coef discount_factor : R)
    (model : model_t) (rho cis : R) (device : string) : result t :=
  vt ← VTrace.new [("discount_factor", PyFloat discount_factor);
                   ("rho", PyFloat rho);
                   ("cis", PyFloat cis);
                   ("sequence_length", PyInt (Z.of_nat sequence_length))]%string;
  Ok (Make device model entropy_coef value_coef sequence_length vt).

(** [self.discount_factor]: the instance has no such attribute, and
    [nn.Module.__getattr__] raises. *)
Definition getattr_discount_factor (self : t) : result R := Raise AttributeError.

(** Lines 100-101: [(v_targets - target_value).pow_(2).sum()] *)
Definition loss_value (v_targets target_value : tensor) : result R :=
  d ← tensor_op Rminus v_targets target_value;
  Ok (tensor_sum (tensor_map (fun x => x ^ 2) d)).

(** Line 108: [rewards + g * v_targets[1:] - target_value[:-1]] *)
Definition advantage (g : R) (rewards v_targets target_value : tensor)
  : result tensor :=
  a ← tensor_op Rplus rewards (tensor_map (Rmult g) (drop_first v_targets));
  tensor_op Rminus a (drop_last target_value).

(** Lines 109-110: [(- rhos * target_log_probs[:-1] * advantage).sum()] *)
Definition loss_policy (rhos target_log_probs advantage : tensor) : result R :=
  p ← tensor_op Rmult (tensor_map Ropp rhos) (drop_last target_log_probs);
  q ← tensor_op Rmult p advantage;
  Ok (tensor_sum q).

(** Line 114: [target_entropy[:-1].sum()] *)
Definition entropy (target_entropy : tensor) : R :=
  tensor_sum (drop_last target_entropy).

(** The statistics returned next to the loss. *)
Record detached_losses : Type :=
  Stats { stat_policy : R; stat_value : R; stat_entropy : R }.

(** [Impala.loss] *)
Definition loss (self : t) (obs : list Frame) (behaviour_actions : Actions)
    (reset_mask : Mask) (lstm_hxs : Hidden) (rewards behaviour_log_probs : tensor)
  : result (R * detached_losses) :=
  _ ← py_assert (length obs =? sequence_length self + 1)%nat;
  out ← model self obs lstm_hxs reset_mask behaviour_actions;
  let '(target_log_probs, target_entropy, target_value) := out in
  vr ← VTrace.forward (vtrace self) target_value rewards
                      (drop_last target_log_probs) behaviour_log_probs;
  let '(v_targets, rhos) := vr in
  lv ← loss_value v_targets target_value;
  g ← getattr_discount_factor self;
  adv ← advantage g rewards v_targets target_value;
  lp ← loss_policy rhos target_log_probs adv;
  let ent := entropy target_entropy in
  let total := lp + value_coef self * lv - entropy_coef self * ent in
  Ok (total, Stats lp lv ent).

End WithModel.

End Impala.

(** ** Vocabulary of the statements *)

(** The right-hand side of the V-trace recursion at time [i] and batch
    position [b], given the value [next] of the target at time [i + 1]. *)
Definition vtrace_step (g : R) (target_value rewards rhos ciss : tensor)
    (i b : nat) (next : R) : R :=
  at2 target_value i b
  + at2 rhos i b * (at2 rewards i b + g * at2 target_value (i + 1) b
                    - at2 target_value i b)
  + g * at2 ciss i b * (next - at2 target_value (i + 1) b).

(** The state of the buffer [vtrace] during the backward loop: rows
    [k .. T-1] are written, row [T] holds the bootstrap value. *)
Definition written (g : R) (tv rw rhos ciss : tensor) (T B k : nat) (v : tensor)
  : Prop :=
  has_shape v (S T) B
  /\ rows v !! T = rows tv !! T
  /\ (forall i b, (k <= i < T)%nat -> (b < B)%nat ->
        at2 v i b = vtrace_step g tv rw rhos ciss i b (at2 v (i + 1) b)).

(** A valid segment: [T + 1] value estimates, [T] rewards and [T]
    log-probabilities of each policy, for [B] parallel episodes. *)
Definition valid_segment (T B : nat)
    (target_value rewards target_log_policy behaviour_log_policy : tensor) : Prop :=
  has_shape target_value (S T) B /\ has_shape rewards T B /\
  has_shape target_log_policy T B /\ has_shape behaviour_log_policy T B.

(** [f 0 + f 1 + ... + f (n - 1)] *)
Definition big_sum (n : nat) (f : nat -> R) : R := foldr Rplus 0 (f <$> seq 0 n).

(** The n-step bootstrapped return from time [i] in a segment of [T]
    transitions: the discounted rewards of steps [i .. T-1], then the
    discounted bootstrap value. *)
Definition n_step_return (g : R) (rewards target_value : tensor) (T i b : nat) : R :=
  big_sum (T - i) (fun k => g ^ k * at2 rewards (i + k) b)
  + g ^ (T - i) * at2 target_value T b.

(** [f 0 * f 1 * ... * f (n - 1)] *)
Definition big_prod (n : nat) (f : nat -> R) : R := foldr Rmult 1 (f <$> seq 0 n).

(** The quantities of the recursion at time [i] and batch position [b]:
    the importance ratio, its two truncations and the weighted temporal
    difference [delta]. *)
Definition weight_at (tlp blp : tensor) (i b : nat) : R :=
  exp (at2 tlp i b - at2 blp i b).
Definition rho_at (self : VTrace.t) (tlp blp : tensor) (i b : nat) : R :=
  Rmin (VTrace.rho self) (weight_at tlp blp i b).
Definition c_at (self : VTrace.t) (tlp blp : tensor) (i b : nat) : R :=
  Rmin (VTrace.cis self) (weight_at tlp blp i b).
Definition td_at (self : VTrace.t) (tv rw : tensor) (i b : nat) : R :=
  at2 rw i b + VTrace.discount_factor self * at2 tv (i + 1) b - at2 tv i b.
Definition delta_at (self : VTrace.t) (tv rw tlp blp : tensor) (i b : nat) : R :=
  rho_at self tlp blp i b * td_at self tv rw i b.

(** A small segment used to run the code: [T = 2], [B = 1]. *)
Definition ex_self : VTrace.t := VTrace.Make 1 1 (99 / 100).
Definition ex_target_value : tensor := Tensor 1 [[0]; [0]; [0]].
Definition ex_rewards : tensor := Tensor 1 [[1]; [1]].
Definition ex_log_policy : tensor := Tensor 1 [[0]; [0]].

(** The same segment with two rewards too many, and a loss aggregator
    whose model returns fixed outputs for it. *)
Definition ex_long_rewards : tensor := Tensor 1 [[1]; [1]; [5]; [7]].
Definition ex_log_probs : tensor := Tensor 1 [[0]; [0]; [0]].
Definition ex_entropy : tensor := Tensor 1 [[1]; [1]; [1]].
Definition ex_model : @Impala.model_t unit unit unit unit :=
  fun _ _ _ _ => Ok (ex_log_probs, ex_entropy, ex_target_value).
Definition ex_impala : @Impala.t unit unit unit unit :=
  Impala.Make "cuda" ex_model (1 / 100) (1 / 2) 2 ex_self.

(** * Properties *)

(** ** Rows and tensors of matching shapes *)

Lemma bind_Ok {A B : Type} (a : A) (f : A -> result B) : (Ok a ≫= f) = f a.
Proof. reflexivity. Qed.

Lemma broadcast_dim_same n : broadcast_dim n n = Ok n.
Proof. unfold broadcast_dim. by rewrite Nat.eqb_refl. Qed.

Lemma expand_same {A : Type} (n : nat) (l : list A) : length l = n -> expand n l = l.
Proof. destruct l as [|x [|y l]]; simpl; intros <-; done. Qed.

Lemma row_op_same (f : R -> R -> R) (x y : row) :
  length x = length y -> row_op f x y = Ok (zip_with f x y).
Proof.
  intros E. unfold row_op. rewrite E, broadcast_dim_same. simpl.
  by rewrite !expand_same.
Qed.

Lemma zip_with_expand_rows (f : R -> R -> R) B (xs ys : list row) :
  Forall (fun r => length r = B) xs -> Forall (fun r => length r = B) ys ->
  zip_with (fun r s => zip_with f (expand B r) (expand B s)) xs ys
  = zip_with (zip_with f) xs ys.
Proof.
  intros Hx. revert ys. induction Hx as [|x xs Hx _ IH]; intros ys Hy; [done|].
  destruct Hy as [|y ys Hy Hys]; [done|]. simpl.
  by rewrite !expand_same, IH.
Qed.

Lemma tensor_op_same (f : R -> R -> R) x y T B :
  has_shape x T B -> has_shape y T B ->
  tensor_op f x y = Ok (Tensor B (zip_with (zip_with f) (rows x) (rows y))).
Proof.
  intros (Tx & Bx & Wx) (Ty & By & Wy). unfold tensor_op, wf_tensor in *.
  rewrite Tx, Ty, Bx, By, !broadcast_dim_same. simpl.
  rewrite Bx in Wx. rewrite By in Wy.
  rewrite !expand_same by done. by rewrite zip_with_expand_rows.
Qed.

Lemma has_shape_zip_with (f : R -> R -> R) x y T B :
  has_shape x T B -> has_shape y T B ->
  has_shape (Tensor B (zip_with (zip_with f) (rows x) (rows y))) T B.
Proof.
  intros (Tx & Bx & Wx) (Ty & By & Wy). unfold has_shape, size0, wf_tensor in *.
  simpl. split_and!; [rewrite length_zip_with; lia|done|].
  apply Forall_lookup. intros i r Hr.
  apply lookup_zip_with_Some in Hr as (a & b & -> & Ha & Hb).
  rewrite length_zip_with.
  rewrite (Forall_lookup_1 _ _ _ _ Wx Ha), (Forall_lookup_1 _ _ _ _ Wy Hb). lia.
Qed.

Lemma has_shape_tensor_map f x T B :
  has_shape x T B -> has_shape (tensor_map f x) T B.
Proof.
  intros (Tx & Bx & Wx). unfold has_shape, size0, wf_tensor, tensor_map in *.
  simpl. split_and!; [by rewrite length_fmap|done|].
  apply Forall_fmap. eapply Forall_impl; [exact Wx|].
  intros r Hr. simpl. by rewrite length_fmap.
Qed.

Lemma row_at_zip_with (f : R -> R -> R) (x y : row) b :
  (b < length x)%nat -> (b < length y)%nat ->
  row_at (zip_with f x y) b = f (row_at x b) (row_at y b).
Proof.
  intros Hx Hy. unfold row_at. rewrite lookup_zip_with.
  destruct (lookup_lt_is_Some_2 x b Hx) as [u ->].
  destruct (lookup_lt_is_Some_2 y b Hy) as [v ->]. done.
Qed.

Lemma row_at_fmap (f : R -> R) (x : row) b :
  (b < length x)%nat -> row_at (f <$> x) b = f (row_at x b).
Proof.
  intros Hx. unfold row_at. rewrite list_lookup_fmap.
  destruct (lookup_lt_is_Some_2 x b Hx) as [u ->]. done.
Qed.

Lemma has_shape_lookup x T B i :
  has_shape x T B -> (i < T)%nat ->
  exists r, rows x !! i = Some r /\ length r = B.
Proof.
  intros (Tx & Bx & Wx) Hi. unfold size0, wf_tensor in *.
  destruct (lookup_lt_is_Some_2 (rows x) i) as [r Hr]; [lia|].
  exists r. split; [done|]. rewrite <- Bx. exact (Forall_lookup_1 _ _ _ _ Wx Hr).
Qed.

Lemma at2_zip_with (f : R -> R -> R) x y T B i b :
  has_shape x T B -> has_shape y T B -> (i < T)%nat -> (b < B)%nat ->
  at2 (Tensor B (zip_with (zip_with f) (rows x) (rows y))) i b
  = f (at2 x i b) (at2 y i b).
Proof.
  intros Hx Hy Hi Hb.
  destruct (has_shape_lookup _ _ _ _ Hx Hi) as (r & Hr & Lr).
  destruct (has_shape_lookup _ _ _ _ Hy Hi) as (s & Hs & Ls).
  unfold at2. simpl. rewrite lookup_zip_with, Hr, Hs. simpl.
  apply row_at_zip_with; lia.
Qed.

Lemma at2_tensor_map f x T B i b :
  has_shape x T B -> (i < T)%nat -> (b < B)%nat ->
  at2 (tensor_map f x) i b = f (at2 x i b).
Proof.
  intros Hx Hi Hb.
  destruct (has_shape_lookup _ _ _ _ Hx Hi) as (r & Hr & Lr).
  unfold at2, tensor_map. simpl. rewrite list_lookup_fmap, Hr. simpl.
  apply row_at_fmap. lia.
Qed.

(** ** The backward loop of [VTrace.forward] *)

Lemma at2_same_row v v' j b :
  rows v' !! j = rows v !! j -> at2 v' j b = at2 v j b.
Proof. unfold at2. by intros ->. Qed.

Lemma reversed_range_S n : reversed_range (S n) = n :: reversed_range n.
Proof. unfold reversed_range. by rewrite seq_S, rev_app_distr. Qed.

Section BackwardLoop.

Variables (self : VTrace.t) (tv rw rhos ciss : tensor) (T B : nat).
Hypothesis Htv : has_shape tv (S T) B.
Hypothesis Hrw : has_shape rw T B.
Hypothesis Hrhos : has_shape rhos T B.
Hypothesis Hciss : has_shape ciss T B.

(** One iteration writes row [i] from row [i + 1] and leaves the other
    rows alone. *)
Lemma loop_body_ok i v :
  (i < T)%nat -> has_shape v (S T) B ->
  exists v', VTrace.loop_body self tv rw rhos ciss i v = Ok v'
    /\ has_shape v' (S T) B
    /\ (forall j, j <> i -> rows v' !! j = rows v !! j)
    /\ (forall b, (b < B)%nat ->
          at2 v' i b = vtrace_step (VTrace.discount_factor self) tv rw rhos ciss
                       i b (at2 v (i + 1) b)).
Proof.
  intros Hi Hv.
  destruct (has_shape_lookup _ _ _ i Hrhos) as (rho_i & E1 & L1); [lia|].
  destruct (has_shape_lookup _ _ _ i Hrw) as (r_i & E2 & L2); [lia|].
  destruct (has_shape_lookup _ _ _ (i + 1) Htv) as (tv_i1 & E3 & L3); [lia|].
  destruct (has_shape_lookup _ _ _ i Htv) as (tv_i & E4 & L4); [lia|].
  destruct (has_shape_lookup _ _ _ i Hciss) as (c_i & E5 & L5); [lia|].
  destruct (has_shape_lookup _ _ _ (i + 1) Hv) as (v_i1 & E6 & L6); [lia|].
  destruct Hv as (Tv & Bv & Wv).
  unfold VTrace.loop_body, getitem, scalar_mul.
  rewrite E1, E2, E3, E4, E5, E6. simpl.
  repeat (rewrite row_op_same
            by (rewrite ?length_zip_with, ?length_fmap; lia); simpl).
  unfold setitem.
  assert ((i <? size0 v)%nat = true) as -> by (apply Nat.ltb_lt; lia).
  match goal with |- context [(length ?z =? _)%nat] => set (z0 := z) end.
  assert (length z0 = B) as Lz
    by (unfold z0; rewrite ?length_zip_with, ?length_fmap; lia).
  assert ((length z0 =? width v)%nat = true) as -> by (apply Nat.eqb_eq; lia).
  eexists. split; [reflexivity|]. split_and!.
  - unfold has_shape, size0, wf_tensor in *. simpl.
    rewrite length_insert. split_and!; [done..|].
    apply Forall_insert; [done|lia].
  - intros j Hj. simpl. by rewrite list_lookup_insert_ne.
  - intros b Hb. unfold at2 at 1. simpl.
    rewrite list_lookup_insert_eq by (unfold size0 in Tv; lia).
    unfold z0, vtrace_step, at2. rewrite E1, E2, E3, E4, E5, E6.
    repeat (rewrite ?row_at_zip_with, ?row_at_fmap
              by (rewrite ?length_zip_with, ?length_fmap; lia)).
    reflexivity.
Qed.

Lemma backward_loop_ok n v :
  (n <= T)%nat ->
  written (VTrace.discount_factor self) tv rw rhos ciss T B n v ->
  exists v',
    for_loop (VTrace.loop_body self tv rw rhos ciss) (reversed_range n) v = Ok v'
    /\ written (VTrace.discount_factor self) tv rw rhos ciss T B 0 v'.
Proof.
  revert v. induction n as [|m IH]; intros v Hn Hw.
  - exists v. done.
  - destruct Hw as (Hv & Hboot & Hrec).
    destruct (loop_body_ok m v) as (v1 & E & Hv1 & Hkeep & Hnew); [lia|done|].
    rewrite reversed_range_S. simpl. rewrite E. simpl.
    apply IH; [lia|]. split_and!; [done| |].
    + rewrite Hkeep by lia. done.
    + intros i b Hi Hb. destruct (decide (i = m)) as [->|Hne].
      * rewrite Hnew by done. f_equal. symmetry.
        apply at2_same_row, Hkeep. lia.
      * rewrite (at2_same_row v v1 i) by (apply Hkeep; lia).
        rewrite (at2_same_row v v1 (i + 1)) by (apply Hkeep; lia).
        apply Hrec; [lia|done].
Qed.

End BackwardLoop.

(** ** What [VTrace.forward] returns on a valid segment *)

Lemma importance_sampling_ok tlp blp T B :
  has_shape tlp T B -> has_shape blp T B ->
  exists w, VTrace.importance_sampling tlp blp = Ok w
    /\ has_shape w T B
    /\ forall i b, (i < T)%nat -> (b < B)%nat ->
         at2 w i b = exp (at2 tlp i b - at2 blp i b).
Proof.
  intros Ht Hb. unfold VTrace.importance_sampling.
  rewrite (tensor_op_same _ _ _ T B) by done. simpl.
  eexists. split; [reflexivity|]. split.
  - by apply has_shape_tensor_map, has_shape_zip_with.
  - intros i b Hi Hlt.
    rewrite (at2_tensor_map _ _ T B) by (try apply has_shape_zip_with; done).
    f_equal. by apply (at2_zip_with _ _ _ T B).
Qed.

(** The statements of [VTrace.forward] before the loop. *)
Lemma forward_prefix self tv rw tlp blp T B w boot :
  has_shape tv (S T) B ->
  VTrace.importance_sampling tlp blp = Ok w ->
  rows tv !! T = Some boot ->
  VTrace.forward self tv rw tlp blp =
  (v ← for_loop (VTrace.loop_body self tv rw (VTrace.truncate (VTrace.rho self) w)
                   (VTrace.truncate (VTrace.cis self) w))
                (reversed_range T)
                (Tensor B (<[T := boot]> (replicate (S T) (replicate B 0))));
   Ok (v, VTrace.truncate (VTrace.rho self) w)).
Proof.
  intros Htv Ew Eboot.
  destruct (has_shape_lookup _ _ _ T Htv) as (boot' & Eboot' & Lboot); [lia|].
  assert (boot' = boot) as -> by congruence.
  destruct Htv as (Ttv & Btv & Wtv). unfold size0 in Ttv.
  unfold VTrace.forward, getitem_last, setitem_last, setitem, zeros, size0.
  rewrite Ew, last_lookup, Ttv, Btv. cbn [rows width Nat.pred].
  rewrite Eboot, !length_replicate. cbn [mbind result_bind].
  rewrite Lboot, Nat.eqb_refl.
  replace (S T - 1)%nat with T by lia.
  assert ((T <? S T)%nat = true) as -> by (apply Nat.ltb_lt; lia).
  reflexivity.
Qed.

Lemma forward_ok self tv rw tlp blp T B :
  valid_segment T B tv rw tlp blp ->
  exists v w,
    VTrace.importance_sampling tlp blp = Ok w
    /\ has_shape w T B
    /\ (forall i b, (i < T)%nat -> (b < B)%nat ->
          at2 w i b = exp (at2 tlp i b - at2 blp i b))
    /\ VTrace.forward self tv rw tlp blp = Ok (v, VTrace.truncate (VTrace.rho self) w)
    /\ has_shape v (S T) B
    /\ rows v !! T = rows tv !! T
    /\ (forall i b, (i < T)%nat -> (b < B)%nat ->
          at2 v i b =
          vtrace_step (VTrace.discount_factor self) tv rw
            (VTrace.truncate (VTrace.rho self) w) (VTrace.truncate (VTrace.cis self) w)
            i b (at2 v (i + 1) b)).
Proof.
  intros (Htv & Hrw & Htlp & Hblp).
  destruct (importance_sampling_ok tlp blp T B) as (w & Ew & Hw & Hwat); [done..|].
  destruct (has_shape_lookup _ _ _ T Htv) as (boot & Eboot & Lboot); [lia|].
  pose proof Htv as (Ttv & Btv & Wtv).
  set (v0 := Tensor B (<[T := boot]> (replicate (S T) (replicate B 0)))).
  destruct (backward_loop_ok self tv rw (VTrace.truncate (VTrace.rho self) w)
              (VTrace.truncate (VTrace.cis self) w) T B Htv Hrw
              (has_shape_tensor_map _ _ _ _ Hw) (has_shape_tensor_map _ _ _ _ Hw)
              T v0) as (v & Ev & Hv & Hboot & Hrec); [lia| |].
  { split_and!.
    - unfold has_shape, size0, wf_tensor, v0. cbn [rows width].
      rewrite length_insert, length_replicate. split_and!; [done..|].
      apply Forall_insert; [|done].
      apply Forall_replicate. by rewrite length_replicate.
    - unfold v0. cbn [rows width].
      rewrite list_lookup_insert_eq by (rewrite length_replicate; lia). done.
    - intros i b Hi. lia. }
  exists v, w. split_and!; try done.
  - rewrite (forward_prefix self tv rw tlp blp T B w boot) by done.
    fold v0. rewrite Ev. done.
  - intros i b Hi Hb. apply Hrec; [lia|done].
Qed.

(** Shapes of tensors written out in full. *)
Ltac concrete_shape :=
  unfold valid_segment, has_shape, wf_tensor; simpl;
  split_and!; try reflexivity; repeat constructor.

Lemma ex_valid_segment :
  valid_segment 2 1 ex_target_value ex_rewards ex_log_policy ex_log_policy.
Proof. concrete_shape. Defined.

Lemma at2_truncate bar w T B i b :
  has_shape w T B -> (i < T)%nat -> (b < B)%nat ->
  at2 (VTrace.truncate bar w) i b = Rmin bar (at2 w i b).
Proof. intros. by apply (at2_tensor_map _ _ T B). Qed.

(** ** The claims on the V-trace estimator *)

(** C1. On a valid segment [VTrace.forward] returns targets that satisfy,
    at every time [i < T] and batch position [b],
    [v[i] = V[i] + rho[i] * (r[i] + g * V[i+1] - V[i])
            + g * c[i] * (v[i+1] - V[i+1])]
    with [w[i] = exp (target_log_policy[i] - behaviour_log_policy[i])],
    [rho[i] = min rho_bar w[i]] (the returned [rhos]) and
    [c[i] = min cis_bar w[i]], starting from [v[T] = V[T]]. *)
Theorem vtrace_recursion self tv rw tlp blp T B :
  valid_segment T B tv rw tlp blp ->
  exists v rhos,
    VTrace.forward self tv rw tlp blp = Ok (v, rhos)
    /\ (forall b, (b < B)%nat -> at2 v T b = at2 tv T b)
    /\ forall i b, (i < T)%nat -> (b < B)%nat ->
        let w := exp (at2 tlp i b - at2 blp i b) in
        let rho := Rmin (VTrace.rho self) w in
        let c := Rmin (VTrace.cis self) w in
        let g := VTrace.discount_factor self in
        at2 rhos i b = rho
        /\ at2 v i b =
           at2 tv i b
           + rho * (at2 rw i b + g * at2 tv (i + 1) b - at2 tv i b)
           + g * c * (at2 v (i + 1) b - at2 tv (i + 1) b).
Proof.
  intros Hseg.
  destruct (forward_ok self tv rw tlp blp T B Hseg)
    as (v & w & _ & Hw & Hwat & Efw & _ & Hboot & Hrec).
  exists v, (VTrace.truncate (VTrace.rho self) w). split_and!; [done| |].
  - intros b _. by apply at2_same_row.
  - intros i b Hi Hb. cbv zeta.
    rewrite (Hrec i b Hi Hb). unfold vtrace_step.
    rewrite !(at2_truncate _ w T B), (Hwat i b) by done. done.
Qed.

Lemma vtrace_recursion_witness :
  exists v rhos,
    VTrace.forward ex_self ex_target_value ex_rewards ex_log_policy ex_log_policy
    = Ok (v, rhos)
    /\ (forall b, (b < 1)%nat -> at2 v 2 b = at2 ex_target_value 2 b)
    /\ forall i b, (i < 2)%nat -> (b < 1)%nat ->
        let w := exp (at2 ex_log_policy i b - at2 ex_log_policy i b) in
        let rho := Rmin (VTrace.rho ex_self) w in
        let c := Rmin (VTrace.cis ex_self) w in
        let g := VTrace.discount_factor ex_self in
        at2 rhos i b = rho
        /\ at2 v i b =
           at2 ex_target_value i b
           + rho * (at2 ex_rewards i b + g * at2 ex_target_value (i + 1) b
                    - at2 ex_target_value i b)
           + g * c * (at2 v (i + 1) b - at2 ex_target_value (i + 1) b).
Proof.
  exact (vtrace_recursion ex_self ex_target_value ex_rewards ex_log_policy
           ex_log_policy 2 1 ex_valid_segment).
Defined.

(** C2. On a valid segment the last row of the targets returned by
    [VTrace.forward] is the last row of [target_value]. *)
Theorem vtrace_bootstrap self tv rw tlp blp T B :
  valid_segment T B tv rw tlp blp ->
  exists v rhos boot,
    VTrace.forward self tv rw tlp blp = Ok (v, rhos)
    /\ getitem_last tv = Ok boot
    /\ getitem_last v = Ok boot
    /\ getitem v T = Ok boot.
Proof.
  intros Hseg.
  destruct (forward_ok self tv rw tlp blp T B Hseg)
    as (v & w & _ & _ & _ & Efw & Hv & Hboot & _).
  destruct Hseg as (Htv & _).
  destruct (has_shape_lookup _ _ _ T Htv) as (boot & Eboot & _); [lia|].
  exists v, (VTrace.truncate (VTrace.rho self) w), boot.
  destruct Htv as (Ttv & _). destruct Hv as (Tv & _). unfold size0 in *.
  unfold getitem_last, getitem. rewrite !last_lookup, Ttv, Tv. simpl.
  rewrite Hboot, Eboot. done.
Qed.

Lemma vtrace_bootstrap_witness :
  exists v rhos boot,
    VTrace.forward ex_self ex_target_value ex_rewards ex_log_policy ex_log_policy
    = Ok (v, rhos)
    /\ getitem_last ex_target_value = Ok boot
    /\ getitem_last v = Ok boot
    /\ getitem v 2 = Ok boot.
Proof.
  exact (vtrace_bootstrap ex_self ex_target_value ex_rewards ex_log_policy
           ex_log_policy 2 1 ex_valid_segment).
Defined.

(** Finite sums. *)

Lemma big_sum_0 f : big_sum 0 f = 0.
Proof. reflexivity. Qed.

Lemma big_sum_S_first n f : big_sum (S n) f = f 0%nat + big_sum n (fun k => f (S k)).
Proof.
  unfold big_sum. cbn [seq fmap list_fmap foldr]. f_equal.
  by rewrite <- fmap_S_seq, <- list_fmap_compose.
Qed.

Lemma big_sum_ext n f h :
  (forall k, (k < n)%nat -> f k = h k) -> big_sum n f = big_sum n h.
Proof.
  revert f h. induction n as [|n IH]; intros f h E; [done|].
  rewrite !big_sum_S_first, (E 0%nat) by lia. f_equal.
  apply IH. intros k Hk. apply E. lia.
Qed.

Lemma big_sum_scal n a f : big_sum n (fun k => a * f k) = a * big_sum n f.
Proof.
  revert f. induction n as [|n IH]; intros f.
  - rewrite !big_sum_0. lra.
  - rewrite !big_sum_S_first, IH. lra.
Qed.

Lemma big_sum_zero n f : (forall k, (k < n)%nat -> f k = 0) -> big_sum n f = 0.
Proof.
  intros E. rewrite (big_sum_ext n f (fun _ => 0 * 0)) by (intros; rewrite E; [lra|done]).
  rewrite big_sum_scal. lra.
Qed.

Lemma n_step_return_last g rw tv T b : n_step_return g rw tv T T b = at2 tv T b.
Proof. unfold n_step_return. rewrite Nat.sub_diag, big_sum_0. simpl. lra. Qed.

Lemma n_step_return_step g rw tv T i b :
  (i < T)%nat ->
  n_step_return g rw tv T i b = at2 rw i b + g * n_step_return g rw tv T (i + 1) b.
Proof.
  intros Hi. unfold n_step_return.
  replace (T - i)%nat with (S (T - (i + 1))) by lia.
  rewrite big_sum_S_first, Nat.add_0_r.
  rewrite (big_sum_ext _ (fun k => g ^ S k * at2 rw (i + S k) b)
             (fun k => g * (g ^ k * at2 rw (i + 1 + k) b))).
  - rewrite big_sum_scal. simpl. lra.
  - intros k _. replace (i + S k)%nat with (i + 1 + k)%nat by lia. simpl. lra.
Qed.

(** C3. On a valid segment where the two policies agree at every step and
    with [rho_bar >= 1] and [cis_bar >= 1], the truncated weights are all
    [min rho_bar 1 = min cis_bar 1 = 1] and the targets are the n-step
    bootstrapped returns
    [sum_{k=0}^{T-1-i} g^k * r[i+k] + g^(T-i) * V[T]]. *)
Theorem vtrace_on_policy self tv rw tlp blp T B :
  valid_segment T B tv rw tlp blp ->
  (forall i b, (i < T)%nat -> (b < B)%nat -> at2 tlp i b = at2 blp i b) ->
  VTrace.rho self >= 1 ->
  VTrace.cis self >= 1 ->
  exists v rhos w,
    VTrace.forward self tv rw tlp blp = Ok (v, rhos)
    /\ VTrace.importance_sampling tlp blp = Ok w
    /\ Rmin (VTrace.rho self) 1 = 1
    /\ Rmin (VTrace.cis self) 1 = 1
    /\ forall i b, (i < T)%nat -> (b < B)%nat ->
        at2 rhos i b = 1
        /\ at2 (VTrace.truncate (VTrace.cis self) w) i b = 1
        /\ at2 v i b = n_step_return (VTrace.discount_factor self) rw tv T i b.
Proof.
  intros Hseg Hon Hrho Hcis.
  destruct (forward_ok self tv rw tlp blp T B Hseg)
    as (v & w & Ew & Hw & Hwat & Efw & _ & Hboot & Hrec).
  assert (Rmin (VTrace.rho self) 1 = 1) as Mrho by (apply Rmin_right; lra).
  assert (Rmin (VTrace.cis self) 1 = 1) as Mcis by (apply Rmin_right; lra).
  assert (forall bar i b, (i < T)%nat -> (b < B)%nat -> Rmin bar 1 = 1 ->
            at2 (VTrace.truncate bar w) i b = 1) as Hone.
  { intros bar i b Hi Hb M.
    rewrite (at2_truncate _ w T B), Hwat, Hon by done.
    by rewrite Rminus_diag, exp_0. }
  exists v, (VTrace.truncate (VTrace.rho self) w), w.
  split_and!; try done.
  assert (forall d i b, (i + d = T)%nat -> (b < B)%nat ->
            at2 v i b = n_step_return (VTrace.discount_factor self) rw tv T i b)
    as Hret.
  { induction d as [|d IH]; intros i b Hd Hb.
    - rewrite Nat.add_0_r in Hd. subst i. rewrite n_step_return_last.
      by apply at2_same_row.
    - rewrite n_step_return_step, <- (IH (i + 1)%nat b), Hrec by (done || lia).
      unfold vtrace_step. rewrite !Hone by (done || lia). lra. }
  intros i b Hi Hb. split_and!; [by apply Hone..|].
  apply (Hret (T - i)%nat); [lia|done].
Qed.

Lemma vtrace_on_policy_witness :
  exists v rhos w,
    VTrace.forward ex_self ex_target_value ex_rewards ex_log_policy ex_log_policy
    = Ok (v, rhos)
    /\ VTrace.importance_sampling ex_log_policy ex_log_policy = Ok w
    /\ Rmin (VTrace.rho ex_self) 1 = 1
    /\ Rmin (VTrace.cis ex_self) 1 = 1
    /\ forall i b, (i < 2)%nat -> (b < 1)%nat ->
        at2 rhos i b = 1
        /\ at2 (VTrace.truncate (VTrace.cis ex_self) w) i b = 1
        /\ at2 v i b
           = n_step_return (VTrace.discount_factor ex_self) ex_rewards
               ex_target_value 2 i b.
Proof.
  apply (vtrace_on_policy ex_self ex_target_value ex_rewards ex_log_policy
           ex_log_policy 2 1 ex_valid_segment).
  - intros i b _ _. reflexivity.
  - simpl. lra.
  - simpl. lra.
Defined.

(** C4. On a valid segment and with [0 < cis_bar <= rho_bar], the truncated
    weights satisfy [0 <= rho[i] <= rho_bar], [0 <= c[i] <= cis_bar] and
    [c[i] <= rho[i]] at every step. *)
Theorem truncation_bounds self tv rw tlp blp T B :
  valid_segment T B tv rw tlp blp ->
  0 < VTrace.cis self <= VTrace.rho self ->
  exists v rhos w,
    VTrace.forward self tv rw tlp blp = Ok (v, rhos)
    /\ VTrace.importance_sampling tlp blp = Ok w
    /\ rhos = VTrace.truncate (VTrace.rho self) w
    /\ forall i b, (i < T)%nat -> (b < B)%nat ->
        let rho := at2 rhos i b in
        let c := at2 (VTrace.truncate (VTrace.cis self) w) i b in
        0 <= rho <= VTrace.rho self
        /\ 0 <= c <= VTrace.cis self
        /\ c <= rho.
Proof.
  intros Hseg Hbar.
  destruct (forward_ok self tv rw tlp blp T B Hseg)
    as (v & w & Ew & Hw & Hwat & Efw & _).
  exists v, (VTrace.truncate (VTrace.rho self) w), w.
  split_and!; try done.
  intros i b Hi Hb. cbv zeta.
  rewrite !(at2_truncate _ w T B), Hwat by done.
  pose proof (exp_pos (at2 tlp i b - at2 blp i b)) as Hpos.
  unfold Rmin. repeat destruct (Rle_dec _ _); lra.
Qed.

Lemma truncation_bounds_witness :
  exists v rhos w,
    VTrace.forward ex_self ex_target_value ex_rewards ex_log_policy ex_log_policy
    = Ok (v, rhos)
    /\ VTrace.importance_sampling ex_log_policy ex_log_policy = Ok w
    /\ rhos = VTrace.truncate (VTrace.rho ex_self) w
    /\ forall i b, (i < 2)%nat -> (b < 1)%nat ->
        let rho := at2 rhos i b in
        let c := at2 (VTrace.truncate (VTrace.cis ex_self) w) i b in
        0 <= rho <= VTrace.rho ex_self
        /\ 0 <= c <= VTrace.cis ex_self
        /\ c <= rho.
Proof.
  apply (truncation_bounds ex_self ex_target_value ex_rewards ex_log_policy
           ex_log_policy 2 1 ex_valid_segment).
  simpl. lra.
Defined.

(** ** Sums and slices of tensors *)

Lemma row_sum_big_sum (r : row) : row_sum r = big_sum (length r) (row_at r).
Proof.
  induction r as [|x r IH]; [done|].
  cbn [length]. rewrite big_sum_S_first. unfold row_sum in *. cbn [foldr].
  rewrite IH. reflexivity.
Qed.

Lemma tensor_sum_big_sum t T B :
  has_shape t T B ->
  tensor_sum t = big_sum T (fun i => big_sum B (fun b => at2 t i b)).
Proof.
  destruct t as [B' rs]. intros (HT & HB & W).
  unfold size0, wf_tensor, tensor_sum in *. simpl in *. subst B' T.
  induction W as [|r rs Hr _ IH]; [done|].
  cbn [length]. rewrite big_sum_S_first. cbn [fmap list_fmap foldr].
  rewrite IH, row_sum_big_sum, Hr. reflexivity.
Qed.

Lemma has_shape_drop_last t T B :
  has_shape t (S T) B -> has_shape (drop_last t) T B.
Proof.
  intros (HT & HB & W). unfold has_shape, drop_last, size0, wf_tensor in *. simpl.
  rewrite HT, length_take. split_and!; [lia|done|]. by apply Forall_take.
Qed.

Lemma at2_drop_last t T i b :
  size0 t = S T -> (i < T)%nat -> at2 (drop_last t) i b = at2 t i b.
Proof.
  intros HT Hi. unfold at2, drop_last. simpl.
  rewrite HT, lookup_take_lt by lia. done.
Qed.

Lemma has_shape_drop_first t T B :
  has_shape t (S T) B -> has_shape (drop_first t) T B.
Proof.
  intros (HT & HB & W). unfold has_shape, drop_first, size0, wf_tensor in *. simpl.
  rewrite length_drop, HT. split_and!; [lia|done|]. by apply Forall_drop.
Qed.

Lemma at2_drop_first t i b : at2 (drop_first t) i b = at2 t (i + 1) b.
Proof.
  unfold at2, drop_first. simpl. rewrite lookup_drop.
  by replace (1 + i)%nat with (i + 1)%nat by lia.
Qed.

(** ** The terms of the loss *)

Lemma loss_value_ok v tv T B :
  has_shape v T B -> has_shape tv T B ->
  Impala.loss_value v tv
  = Ok (big_sum T (fun i => big_sum B (fun b => (at2 v i b - at2 tv i b) ^ 2))).
Proof.
  intros Hv Htv. unfold Impala.loss_value.
  rewrite (tensor_op_same _ _ _ T B) by done. simpl. f_equal.
  pose proof (has_shape_zip_with Rminus _ _ _ _ Hv Htv) as Hd.
  rewrite (tensor_sum_big_sum _ T B) by by apply has_shape_tensor_map.
  apply big_sum_ext. intros i Hi. apply big_sum_ext. intros b Hb.
  rewrite (at2_tensor_map _ _ T B) by done.
  by rewrite (at2_zip_with _ _ _ T B).
Qed.

Lemma advantage_ok g rw v tv T B :
  has_shape rw T B -> has_shape v (S T) B -> has_shape tv (S T) B ->
  exists adv, Impala.advantage g rw v tv = Ok adv
    /\ has_shape adv T B
    /\ forall i b, (i < T)%nat -> (b < B)%nat ->
         at2 adv i b = at2 rw i b + g * at2 v (i + 1) b - at2 tv i b.
Proof.
  intros Hrw Hv Htv. unfold Impala.advantage.
  pose proof (has_shape_tensor_map (Rmult g) _ _ _ (has_shape_drop_first _ _ _ Hv)) as H1.
  rewrite (tensor_op_same _ _ _ T B) by done. cbn [mbind result_bind].
  pose proof (has_shape_zip_with Rplus _ _ _ _ Hrw H1) as H2.
  pose proof (has_shape_drop_last _ _ _ Htv) as H3.
  rewrite (tensor_op_same _ _ _ T B) by done.
  eexists. split; [reflexivity|]. split; [by apply has_shape_zip_with|].
  intros i b Hi Hb.
  rewrite (at2_zip_with _ _ _ T B), (at2_zip_with _ _ _ T B) by done.
  rewrite (at2_tensor_map _ _ T B) by (done || by apply has_shape_drop_first).
  rewrite at2_drop_first, (at2_drop_last _ T) by (done || apply Htv). done.
Qed.

Lemma loss_policy_ok rhos tlp adv T B :
  has_shape rhos T B -> has_shape tlp (S T) B -> has_shape adv T B ->
  Impala.loss_policy rhos tlp adv
  = Ok (big_sum T (fun i => big_sum B (fun b =>
          - at2 rhos i b * at2 tlp i b * at2 adv i b))).
Proof.
  intros Hrhos Htlp Hadv. unfold Impala.loss_policy.
  pose proof (has_shape_tensor_map Ropp _ _ _ Hrhos) as H1.
  pose proof (has_shape_drop_last _ _ _ Htlp) as H2.
  rewrite (tensor_op_same _ _ _ T B) by done. cbn [mbind result_bind].
  pose proof (has_shape_zip_with Rmult _ _ _ _ H1 H2) as H3.
  rewrite (tensor_op_same _ _ _ T B) by done. cbn [mbind result_bind]. f_equal.
  rewrite (tensor_sum_big_sum _ T B) by by apply has_shape_zip_with.
  apply big_sum_ext. intros i Hi. apply big_sum_ext. intros b Hb.
  rewrite (at2_zip_with _ _ _ T B), (at2_zip_with _ _ _ T B) by done.
  rewrite (at2_tensor_map _ _ T B), (at2_drop_last _ T) by (done || apply Htlp).
  done.
Qed.

Lemma entropy_ok ent T B :
  has_shape ent (S T) B ->
  Impala.entropy ent = big_sum T (fun i => big_sum B (fun b => at2 ent i b)).
Proof.
  intros Hent. unfold Impala.entropy.
  rewrite (tensor_sum_big_sum _ T B) by by apply has_shape_drop_last.
  apply big_sum_ext. intros i Hi. apply big_sum_ext. intros b Hb.
  apply (at2_drop_last _ T); [apply Hent|done].
Qed.

(** ** The claims on the loss aggregator *)

(** C6. On a valid segment the value loss of lines 100-101 is the sum over
    the [T + 1] time steps and the [B] batch positions of
    [(v_targets - target_value)^2], and every term at the bootstrap index
    [T] is 0. *)
Theorem value_loss_sum self tv rw tlp blp T B :
  valid_segment T B tv rw tlp blp ->
  exists v rhos,
    VTrace.forward self tv rw tlp blp = Ok (v, rhos)
    /\ Impala.loss_value v tv
       = Ok (big_sum (S T) (fun i => big_sum B (fun b =>
               (at2 v i b - at2 tv i b) ^ 2)))
    /\ (forall b, (at2 v T b - at2 tv T b) ^ 2 = 0)
    /\ big_sum B (fun b => (at2 v T b - at2 tv T b) ^ 2) = 0.
Proof.
  intros Hseg.
  destruct (forward_ok self tv rw tlp blp T B Hseg)
    as (v & w & _ & _ & _ & Efw & Hv & Hboot & _).
  destruct Hseg as (Htv & _).
  assert (forall b, (at2 v T b - at2 tv T b) ^ 2 = 0) as Hzero.
  { intros b. rewrite (at2_same_row tv v T b Hboot). simpl. lra. }
  exists v, (VTrace.truncate (VTrace.rho self) w). split_and!; try done.
  - by apply loss_value_ok.
  - apply big_sum_zero. intros b _. apply Hzero.
Qed.

Lemma value_loss_sum_witness :
  exists v rhos,
    VTrace.forward ex_self ex_target_value ex_rewards ex_log_policy ex_log_policy
    = Ok (v, rhos)
    /\ Impala.loss_value v ex_target_value
       = Ok (big_sum 3 (fun i => big_sum 1 (fun b =>
               (at2 v i b - at2 ex_target_value i b) ^ 2)))
    /\ (forall b, (at2 v 2 b - at2 ex_target_value 2 b) ^ 2 = 0)
    /\ big_sum 1 (fun b => (at2 v 2 b - at2 ex_target_value 2 b) ^ 2) = 0.
Proof.
  exact (value_loss_sum ex_self ex_target_value ex_rewards ex_log_policy
           ex_log_policy 2 1 ex_valid_segment).
Defined.

(** C5. [Impala.loss] reads [self.discount_factor] to form the advantage,
    an attribute that [__init__] never assigns: on a segment of the right
    length, whose model outputs and inputs have the right shapes, the call
    raises [AttributeError] after the value loss and returns no total
    loss. *)
Theorem loss_raises_AttributeError {Frame Actions Mask Hidden : Type}
    (self : @Impala.t Frame Actions Mask Hidden) obs acts mask hxs
    rw blp tlp ent tv T B :
  length obs = (Impala.sequence_length self + 1)%nat ->
  Impala.model self obs hxs mask acts = Ok (tlp, ent, tv) ->
  has_shape tlp (S T) B ->
  valid_segment T B tv rw (drop_last tlp) blp ->
  Impala.loss self obs acts mask hxs rw blp = Raise AttributeError.
Proof.
  intros Hlen Hmodel Htlp Hseg. unfold Impala.loss.
  rewrite Hlen, Nat.eqb_refl, Hmodel. cbn [py_assert mbind result_bind].
  destruct (forward_ok (Impala.vtrace self) tv rw (drop_last tlp) blp T B Hseg)
    as (v & w & _ & _ & _ & Efw & Hv & _).
  rewrite Efw. cbn [mbind result_bind].
  rewrite (loss_value_ok v tv (S T) B) by (done || apply Hseg).
  reflexivity.
Qed.

Lemma loss_raises_AttributeError_witness :
  Impala.loss ex_impala [tt; tt; tt] tt tt tt ex_rewards ex_log_policy
  = Raise AttributeError.
Proof.
  apply (loss_raises_AttributeError ex_impala [tt; tt; tt] tt tt tt
           ex_rewards ex_log_policy ex_log_probs ex_entropy ex_target_value 2 1).
  - reflexivity.
  - reflexivity.
  - concrete_shape.
  - exact ex_valid_segment.
Defined.

(** What lines 108-117 would compute from a discount factor [g]: the
    policy loss is the sum over [i < T] of
    [- rho[i] * target_log_probs[i] * advantage[i]] with
    [advantage[i] = r[i] + g * v[i+1] - V[i]], and the entropy is the sum
    over [i < T] of [target_entropy[i]]. *)
Lemma loss_terms g rw v rhos tlp ent tv T B :
  has_shape rw T B -> has_shape v (S T) B -> has_shape tv (S T) B ->
  has_shape rhos T B -> has_shape tlp (S T) B -> has_shape ent (S T) B ->
  exists adv,
    Impala.advantage g rw v tv = Ok adv
    /\ Impala.loss_policy rhos tlp adv
       = Ok (big_sum T (fun i => big_sum B (fun b =>
               - at2 rhos i b * at2 tlp i b
               * (at2 rw i b + g * at2 v (i + 1) b - at2 tv i b))))
    /\ Impala.entropy ent = big_sum T (fun i => big_sum B (fun b => at2 ent i b)).
Proof.
  intros Hrw Hv Htv Hrhos Htlp Hent.
  destruct (advantage_ok g rw v tv T B) as (adv & Ea & Ha & Hat); [done..|].
  exists adv. split_and!; [done| |by apply (entropy_ok _ T B)].
  rewrite (loss_policy_ok _ _ _ T B) by done. f_equal.
  apply big_sum_ext. intros i Hi. apply big_sum_ext. intros b Hb.
  by rewrite Hat.
Qed.

(** ** Errors *)

(** The targets of the running segment, by hand: [1.99; 1; 0]. *)
Example forward_end_to_end :
  exists v rhos,
    VTrace.forward ex_self ex_target_value ex_rewards ex_log_policy ex_log_policy
    = Ok (v, rhos)
    /\ at2 v 0 0 = 199 / 100 /\ at2 v 1 0 = 1 /\ at2 v 2 0 = 0
    /\ at2 rhos 0 0 = 1 /\ at2 rhos 1 0 = 1.
Proof.
  destruct (forward_ok ex_self ex_target_value ex_rewards ex_log_policy
              ex_log_policy 2 1 ex_valid_segment)
    as (v & w & _ & Hw & Hwat & Efw & _ & Hboot & Hrec).
  exists v, (VTrace.truncate (VTrace.rho ex_self) w). split; [done|].
  assert (forall bar i, (i < 2)%nat -> at2 (VTrace.truncate bar w) i 0 = Rmin bar 1)
    as Hone.
  { intros bar i Hi. rewrite (at2_truncate _ w 2 1), Hwat by (done || lia).
    by rewrite Rminus_diag, exp_0. }
  assert (Rmin 1 1 = 1) as Hmin by (apply Rmin_left; lra).
  assert (at2 v 2 0 = 0) as E2 by (by rewrite (at2_same_row _ _ _ _ Hboot)).
  assert (at2 v 1 0 = 1) as E1.
  { rewrite Hrec by lia. unfold vtrace_step. rewrite !Hone by lia. simpl.
    rewrite E2, Hmin. unfold at2, row_at. simpl. lra. }
  assert (at2 v 0 0 = 199 / 100) as E0.
  { rewrite Hrec by lia. unfold vtrace_step. rewrite !Hone by lia. simpl.
    rewrite E1, Hmin. unfold at2, row_at. simpl. lra. }
  rewrite !Hone by lia. done.
Qed.

(** A batch of one reward and one log-probability is broadcast against
    two value estimates per step: a mismatch of [B] that raises nothing. *)
Example forward_accepts_mismatched_B :
  exists out,
    VTrace.forward ex_self (Tensor 2 [[1; 2]; [3; 4]]) (Tensor 1 [[1]])
      (Tensor 1 [[0]]) (Tensor 1 [[0]]) = Ok out.
Proof. eexists. reflexivity. Qed.


Lemma for_loop_ext {S : Type} (body body' : nat -> S -> result S) idx s :
  (forall i s', i ∈ idx -> body i s' = body' i s') ->
  for_loop body idx s = for_loop body' idx s.
Proof.
  revert s. induction idx as [|i idx IH]; intros s E; [done|].
  cbn [for_loop]. rewrite E by apply list_elem_of_here.
  destruct (body' i s) as [s'|e]; [|done]. cbn [mbind result_bind].
  apply IH. intros j s'' Hj. apply E. by apply list_elem_of_further.
Qed.

Lemma elem_of_reversed_range i n : i ∈ reversed_range n -> (i < n)%nat.
Proof.
  unfold reversed_range. rewrite list_elem_of_In, <- in_rev, in_seq. lia.
Qed.









(** C8. [VTrace.__init__] raises (an [AssertionError]) when
    [rho < cis] and passes the check when [rho >= cis]; [VTrace.forward]
    repeats no such check and returns on every valid segment, whatever the
    truncation levels stored in [self]. *)
Theorem init_checks_truncation_levels g rho cis :
  (rho < cis -> VTrace.init g rho cis = Raise AssertionError)
  /\ (rho >= cis -> VTrace.init g rho cis = Ok (VTrace.Make rho cis g))
  /\ (forall tv rw tlp blp T B,
        valid_segment T B tv rw tlp blp ->
        exists out, VTrace.forward (VTrace.Make rho cis g) tv rw tlp blp = Ok out).
Proof.
  unfold VTrace.init. split_and!.
  - intros H. rewrite bool_decide_eq_false_2; [done|lra].
  - intros H. rewrite bool_decide_eq_true_2; done.
  - intros tv rw tlp blp T B Hseg.
    destruct (forward_ok (VTrace.Make rho cis g) tv rw tlp blp T B Hseg)
      as (v & w & _ & _ & _ & Efw & _).
    eexists. exact Efw.
Qed.

Lemma init_checks_truncation_levels_witness :
  VTrace.init (99 / 100) 1 2 = Raise AssertionError
  /\ VTrace.init (99 / 100) 1 1 = Ok (VTrace.Make 1 1 (99 / 100))
  /\ exists out,
       VTrace.forward (VTrace.Make 1 2 (99 / 100)) ex_target_value ex_rewards
         ex_log_policy ex_log_policy = Ok out.
Proof.
  split_and!.
  - apply (proj1 (init_checks_truncation_levels (99 / 100) 1 2)). lra.
  - apply (proj1 (proj2 (init_checks_truncation_levels (99 / 100) 1 1))). lra.
  - exact (proj2 (proj2 (init_checks_truncation_levels (99 / 100) 1 2))
             _ _ _ _ _ _ ex_valid_segment).
Defined.

(** C10. [Impala.__init__] calls [VTrace] with the keyword
    [sequence_length], which names no parameter of [VTrace.__init__]:
    every construction raises [TypeError]. *)
Theorem init_raises_TypeError {Frame Actions Mask Hidden : Type}
    (sequence_length : nat) (entropy_coef value_coef discount_factor : R)
    (model : @Impala.model_t Frame Actions Mask Hidden) (rho cis : R)
    (device : string) :
  Impala.init sequence_length entropy_coef value_coef discount_factor
    model rho cis device = Raise TypeError.
Proof. reflexivity. Qed.

(** The three keywords [VTrace.__init__] does accept bind. *)
Example new_with_declared_keywords :
  VTrace.new [("rho", PyInt 1); ("cis", PyInt 1);
              ("discount_factor", PyFloat (99 / 100))]%string
  = Ok (VTrace.Make 1 1 (99 / 100)).
Proof.
  unfold VTrace.new. cbn [bind_keywords forallb existsb fst VTrace.params].
  cbv -[Rge IZR Rdiv bool_decide Rge_decision].
  rewrite bool_decide_eq_true_2; [done|lra].
Qed.

(** * Further properties of the code *)

(** ** [VTrace.forward], element by element *)

(** Induction backward in time, from the bootstrap step down to 0. *)
Lemma backward_induction (P : nat -> Prop) (T : nat) :
  P T -> (forall i, (i < T)%nat -> P (i + 1)%nat -> P i) ->
  forall i, (i <= T)%nat -> P i.
Proof.
  intros Hlast Hstep.
  assert (forall d i, (i + d = T)%nat -> P i) as H.
  { induction d as [|d IH]; intros i Hd.
    - by replace i with T by lia.
    - apply Hstep; [lia|]. apply IH. lia. }
  intros i Hi. apply (H (T - i)%nat). lia.
Qed.

Lemma forward_elem self tv rw tlp blp T B :
  valid_segment T B tv rw tlp blp ->
  exists v rhos,
    VTrace.forward self tv rw tlp blp = Ok (v, rhos)
    /\ has_shape v (S T) B
    /\ has_shape rhos T B
    /\ (forall b, at2 v T b = at2 tv T b)
    /\ (forall i b, (i < T)%nat -> (b < B)%nat ->
          at2 rhos i b = rho_at self tlp blp i b)
    /\ (forall i b, (i < T)%nat -> (b < B)%nat ->
          at2 v i b = at2 tv i b + delta_at self tv rw tlp blp i b
                      + VTrace.discount_factor self * c_at self tlp blp i b
                        * (at2 v (i + 1) b - at2 tv (i + 1) b)).
Proof.
  intros Hseg.
  destruct (forward_ok self tv rw tlp blp T B Hseg)
    as (v & w & _ & Hw & Hwat & Efw & Hv & Hboot & Hrec).
  exists v, (VTrace.truncate (VTrace.rho self) w).
  split_and!; [done|done|by apply has_shape_tensor_map| | |].
  - intros b. by apply at2_same_row.
  - intros i b Hi Hb. unfold rho_at, weight_at.
    by rewrite (at2_truncate _ w T B), Hwat.
  - intros i b Hi Hb. rewrite (Hrec i b Hi Hb).
    unfold vtrace_step, delta_at, td_at, rho_at, c_at, weight_at.
    rewrite !(at2_truncate _ w T B), (Hwat i b) by done. done.
Qed.

(** X1. On a valid segment the targets have the shape [T + 1, B] of
    [target_value] and the weights the shape [T, B] of the
    log-probabilities. *)
Theorem forward_shapes self tv rw tlp blp T B :
  valid_segment T B tv rw tlp blp ->
  exists v rhos,
    VTrace.forward self tv rw tlp blp = Ok (v, rhos)
    /\ has_shape v (S T) B /\ has_shape rhos T B.
Proof.
  intros Hseg.
  destruct (forward_elem self tv rw tlp blp T B Hseg)
    as (v & rhos & Efw & Hv & Hrhos & _).
  by exists v, rhos.
Qed.

Lemma forward_shapes_witness :
  exists v rhos,
    VTrace.forward ex_self ex_target_value ex_rewards ex_log_policy ex_log_policy
    = Ok (v, rhos)
    /\ has_shape v 3 1 /\ has_shape rhos 2 1.
Proof.
  exact (forward_shapes ex_self ex_target_value ex_rewards ex_log_policy
           ex_log_policy 2 1 ex_valid_segment).
Defined.

(** X2. With a single time step (no transition) the loop does not run:
    the targets are [target_value] itself, the weights are empty, and the
    rewards are not read at all. *)
Theorem forward_pure_bootstrap self tv rw tlp blp B :
  has_shape tv 1 B -> has_shape tlp 0 B -> has_shape blp 0 B ->
  VTrace.forward self tv rw tlp blp = Ok (tv, Tensor B []).
Proof.
  intros Htv Htlp Hblp.
  destruct (importance_sampling_ok tlp blp 0 B) as (w & Ew & Hw & _); [done..|].
  destruct (has_shape_lookup _ _ _ 0%nat Htv) as (boot & Eboot & _); [lia|].
  rewrite (forward_prefix self tv rw tlp blp 0 B w boot) by done.
  cbn [reversed_range seq rev for_loop mbind result_bind].
  destruct tv as [B' rs]. destruct Htv as (HT & HB & _).
  unfold size0 in HT. simpl in *. subst B'.
  destruct rs as [|r [|r' rs]]; try discriminate HT.
  injection Eboot as ->.
  destruct w as [Bw rw0]. destruct Hw as (HTw & HBw & _).
  unfold size0 in HTw. simpl in *. subst Bw.
  destruct rw0; [|discriminate HTw]. reflexivity.
Qed.

Lemma forward_pure_bootstrap_witness :
  VTrace.forward ex_self (Tensor 1 [[7]]) ex_long_rewards (Tensor 1 []) (Tensor 1 [])
  = Ok (Tensor 1 [[7]], Tensor 1 []).
Proof.
  apply (forward_pure_bootstrap ex_self (Tensor 1 [[7]]) ex_long_rewards
           (Tensor 1 []) (Tensor 1 []) 1); concrete_shape.
Defined.

(** X3. With no time step at all in [target_value] the bootstrap
    assignment [vtrace[-1] = target_value[-1]] raises [IndexError]. *)
Theorem forward_empty_target_value self tv rw tlp blp T B :
  size0 tv = 0%nat -> has_shape tlp T B -> has_shape blp T B ->
  VTrace.forward self tv rw tlp blp = Raise IndexError.
Proof.
  intros Htv Htlp Hblp.
  destruct (importance_sampling_ok tlp blp T B) as (w & Ew & _); [done..|].
  unfold VTrace.forward, getitem_last. rewrite Ew. cbn [mbind result_bind].
  unfold size0 in Htv. apply length_zero_iff_nil in Htv. rewrite Htv. reflexivity.
Qed.

Lemma forward_empty_target_value_witness :
  VTrace.forward ex_self (Tensor 1 []) ex_rewards ex_log_policy ex_log_policy
  = Raise IndexError.
Proof.
  apply (forward_empty_target_value ex_self (Tensor 1 []) ex_rewards
           ex_log_policy ex_log_policy 2 1); [reflexivity|concrete_shape..].
Defined.

(** ** What [VTrace.forward] reads *)

Lemma loop_body_rewards self tv rw rw' rhos ciss i v :
  rows rw !! i = rows rw' !! i ->
  VTrace.loop_body self tv rw rhos ciss i v
  = VTrace.loop_body self tv rw' rhos ciss i v.
Proof. intros E. unfold VTrace.loop_body, getitem. by rewrite E. Qed.

(** X4. The call reads the rewards of the [T] transitions of
    [target_value] only: two reward tensors with the same first
    [size0 target_value - 1] rows give the same result, error or not,
    whatever their other rows and their shapes. *)
Theorem forward_reads_first_rewards self tv rw rw' tlp blp :
  (forall i, (i < size0 tv - 1)%nat -> rows rw !! i = rows rw' !! i) ->
  VTrace.forward self tv rw tlp blp = VTrace.forward self tv rw' tlp blp.
Proof.
  intros E. unfold VTrace.forward.
  destruct (VTrace.importance_sampling tlp blp) as [w|e]; [|done].
  cbn [mbind result_bind].
  destruct (getitem_last tv) as [boot|e]; [|done]. cbn [mbind result_bind].
  destruct (setitem_last _ boot) as [v0|e]; [|done]. cbn [mbind result_bind].
  rewrite (for_loop_ext _ (VTrace.loop_body self tv rw'
             (VTrace.truncate (VTrace.rho self) w)
             (VTrace.truncate (VTrace.cis self) w))); [done|].
  intros i s' Hi. apply loop_body_rewards, E. by apply elem_of_reversed_range.
Qed.

Lemma forward_reads_first_rewards_witness :
  VTrace.forward ex_self ex_target_value ex_long_rewards ex_log_policy ex_log_policy
  = VTrace.forward ex_self ex_target_value ex_rewards ex_log_policy ex_log_policy.
Proof.
  apply (forward_reads_first_rewards ex_self ex_target_value ex_long_rewards
           ex_rewards ex_log_policy ex_log_policy).
  intros i Hi. unfold size0 in Hi. simpl in Hi.
  destruct i as [|[|i]]; [reflexivity|reflexivity|lia].
Defined.

(** X5. The batch positions do not interact: the targets and weights at
    batch position [b] are determined by the entries of the four inputs at
    position [b]. *)
Theorem forward_batch_independent self tv rw tlp blp tv' rw' tlp' blp' T B b :
  valid_segment T B tv rw tlp blp ->
  valid_segment T B tv' rw' tlp' blp' ->
  (b < B)%nat ->
  (forall i, (i <= T)%nat -> at2 tv i b = at2 tv' i b) ->
  (forall i, (i < T)%nat ->
     at2 rw i b = at2 rw' i b /\ at2 tlp i b = at2 tlp' i b
     /\ at2 blp i b = at2 blp' i b) ->
  exists v rhos v' rhos',
    VTrace.forward self tv rw tlp blp = Ok (v, rhos)
    /\ VTrace.forward self tv' rw' tlp' blp' = Ok (v', rhos')
    /\ (forall i, (i <= T)%nat -> at2 v i b = at2 v' i b)
    /\ (forall i, (i < T)%nat -> at2 rhos i b = at2 rhos' i b).
Proof.
  intros Hseg Hseg' Hb Htv Hin.
  destruct (forward_elem self tv rw tlp blp T B Hseg)
    as (v & rhos & Efw & _ & _ & Hlast & Hrho & Hrec).
  destruct (forward_elem self tv' rw' tlp' blp' T B Hseg')
    as (v' & rhos' & Efw' & _ & _ & Hlast' & Hrho' & Hrec').
  exists v, rhos, v', rhos'. split_and!; [done|done| |].
  - apply (backward_induction (fun i => at2 v i b = at2 v' i b)).
    + rewrite Hlast, Hlast'. by apply Htv.
    + intros i Hi IH. destruct (Hin i Hi) as (Er & Et & Eb).
      rewrite Hrec, Hrec', IH by done.
      unfold delta_at, td_at, rho_at, c_at, weight_at.
      rewrite Er, Et, Eb, (Htv i), (Htv (i + 1)%nat) by lia. done.
  - intros i Hi. destruct (Hin i Hi) as (_ & Et & Eb).
    rewrite Hrho, Hrho' by done. unfold rho_at, weight_at. by rewrite Et, Eb.
Qed.

Lemma forward_batch_independent_witness :
  exists v rhos v' rhos',
    VTrace.forward ex_self (Tensor 2 [[0; 3]; [0; 4]; [0; 5]])
      (Tensor 2 [[1; 6]; [1; 7]]) (Tensor 2 [[0; 1]; [0; 2]])
      (Tensor 2 [[0; 0]; [0; 0]]) = Ok (v, rhos)
    /\ VTrace.forward ex_self (Tensor 2 [[0; 0]; [0; 0]; [0; 0]])
         (Tensor 2 [[1; 1]; [1; 1]]) (Tensor 2 [[0; 0]; [0; 0]])
         (Tensor 2 [[0; 0]; [0; 0]]) = Ok (v', rhos')
    /\ (forall i, (i <= 2)%nat -> at2 v i 0 = at2 v' i 0)
    /\ (forall i, (i < 2)%nat -> at2 rhos i 0 = at2 rhos' i 0).
Proof.
  apply (forward_batch_independent ex_self _ _ _ _ _ _ _ _ 2 2 0);
    [concrete_shape|concrete_shape|lia| |].
  - intros i Hi. destruct i as [|[|[|i]]]; [reflexivity..|lia].
  - intros i Hi. destruct i as [|[|i]]; [by split_and!..|lia].
Defined.

(** X6. Where the value estimates already satisfy
    [r[i] + g * V[i+1] = V[i]] at every transition, the targets are the
    value estimates themselves, whatever the two policies and the
    truncation levels, and the value loss of lines 100-101 is 0. *)
Theorem forward_fixed_point self tv rw tlp blp T B :
  valid_segment T B tv rw tlp blp ->
  (forall i b, (i < T)%nat -> (b < B)%nat -> td_at self tv rw i b = 0) ->
  exists v rhos,
    VTrace.forward self tv rw tlp blp = Ok (v, rhos)
    /\ (forall i b, (i <= T)%nat -> (b < B)%nat -> at2 v i b = at2 tv i b)
    /\ Impala.loss_value v tv = Ok 0.
Proof.
  intros Hseg Htd.
  destruct (forward_elem self tv rw tlp blp T B Hseg)
    as (v & rhos & Efw & Hv & _ & Hlast & _ & Hrec).
  assert (forall i b, (i <= T)%nat -> (b < B)%nat -> at2 v i b = at2 tv i b) as Heq.
  { intros i b Hi Hb. revert i Hi.
    apply (backward_induction (fun i => at2 v i b = at2 tv i b)); [done|].
    intros i Hi IH. rewrite Hrec, IH by done.
    unfold delta_at. rewrite Htd by done. lra. }
  exists v, rhos. split_and!; [done|done|].
  rewrite (loss_value_ok v tv (S T) B) by (done || apply Hseg). f_equal.
  apply big_sum_zero. intros i Hi. apply big_sum_zero. intros b Hb.
  rewrite Heq by (done || lia). simpl. lra.
Qed.

Lemma forward_fixed_point_witness :
  exists v rhos,
    VTrace.forward ex_self (Tensor 1 [[2]; [1]; [0]]) (Tensor 1 [[101 / 100]; [1]])
      (Tensor 1 [[1]; [0]]) (Tensor 1 [[0]; [2]]) = Ok (v, rhos)
    /\ (forall i b, (i <= 2)%nat -> (b < 1)%nat ->
          at2 v i b = at2 (Tensor 1 [[2]; [1]; [0]]) i b)
    /\ Impala.loss_value v (Tensor 1 [[2]; [1]; [0]]) = Ok 0.
Proof.
  apply (forward_fixed_point ex_self _ _ _ _ 2 1); [concrete_shape|].
  intros i b Hi Hb. replace b with 0%nat by lia.
  destruct i as [|[|i]]; [| |lia];
    unfold td_at, at2, row_at; simpl; lra.
Defined.

(** ** The recursion unrolled *)

Lemma big_prod_0 f : big_prod 0 f = 1.
Proof. reflexivity. Qed.

Lemma big_prod_S_first n f :
  big_prod (S n) f = f 0%nat * big_prod n (fun k => f (S k)).
Proof.
  unfold big_prod. cbn [seq fmap list_fmap foldr]. f_equal.
  by rewrite <- fmap_S_seq, <- list_fmap_compose.
Qed.

Lemma big_prod_ext n f h :
  (forall k, (k < n)%nat -> f k = h k) -> big_prod n f = big_prod n h.
Proof.
  revert f h. induction n as [|n IH]; intros f h E; [done|].
  rewrite !big_prod_S_first, (E 0%nat) by lia. f_equal.
  apply IH. intros k Hk. apply E. lia.
Qed.

(** X7. On a valid segment the targets are the V-trace targets in closed
    form:
    [v[i] = V[i] + sum_{k < T-i} g^k * (c[i] * ... * c[i+k-1]) * delta[i+k]]
    with [delta[k] = rho[k] * (r[k] + g * V[k+1] - V[k])]. *)
Theorem forward_closed_form self tv rw tlp blp T B :
  valid_segment T B tv rw tlp blp ->
  exists v rhos,
    VTrace.forward self tv rw tlp blp = Ok (v, rhos)
    /\ forall i b, (i <= T)%nat -> (b < B)%nat ->
        at2 v i b =
        at2 tv i b
        + big_sum (T - i) (fun k =>
            VTrace.discount_factor self ^ k
            * big_prod k (fun j => c_at self tlp blp (i + j) b)
            * delta_at self tv rw tlp blp (i + k) b).
Proof.
  intros Hseg.
  destruct (forward_elem self tv rw tlp blp T B Hseg)
    as (v & rhos & Efw & _ & _ & Hlast & _ & Hrec).
  exists v, rhos. split; [done|]. intros i b Hi Hb. revert i Hi.
  apply backward_induction.
  - rewrite Nat.sub_diag, big_sum_0, Hlast. lra.
  - intros i Hi IH. rewrite Hrec, IH by done.
    replace (T - i)%nat with (S (T - (i + 1))) by lia.
    rewrite big_sum_S_first, Nat.add_0_r.
    rewrite (big_sum_ext _
               (fun k => VTrace.discount_factor self ^ S k
                         * big_prod (S k) (fun j => c_at self tlp blp (i + j) b)
                         * delta_at self tv rw tlp blp (i + S k) b)
               (fun k => VTrace.discount_factor self * c_at self tlp blp i b
                         * (VTrace.discount_factor self ^ k
                            * big_prod k (fun j => c_at self tlp blp (i + 1 + j) b)
                            * delta_at self tv rw tlp blp (i + 1 + k) b))).
    + rewrite big_sum_scal, big_prod_0, pow_O. ring.
    + intros k _. rewrite big_prod_S_first, Nat.add_0_r.
      replace (i + S k)%nat with (i + 1 + k)%nat by lia.
      rewrite (big_prod_ext k (fun j => c_at self tlp blp (i + S j) b)
                 (fun j => c_at self tlp blp (i + 1 + j) b)).
      * rewrite <- tech_pow_Rmult. ring.
      * intros j _. f_equal. lia.
Qed.

Lemma forward_closed_form_witness :
  exists v rhos,
    VTrace.forward ex_self ex_target_value ex_rewards ex_log_policy ex_log_policy
    = Ok (v, rhos)
    /\ forall i b, (i <= 2)%nat -> (b < 1)%nat ->
        at2 v i b =
        at2 ex_target_value i b
        + big_sum (2 - i) (fun k =>
            VTrace.discount_factor ex_self ^ k
            * big_prod k (fun j => c_at ex_self ex_log_policy ex_log_policy (i + j) b)
            * delta_at ex_self ex_target_value ex_rewards ex_log_policy
                ex_log_policy (i + k) b).
Proof.
  exact (forward_closed_form ex_self ex_target_value ex_rewards ex_log_policy
           ex_log_policy 2 1 ex_valid_segment).
Defined.

Lemma rho_at_nonneg self tlp blp i b : 0 <= VTrace.rho self -> 0 <= rho_at self tlp blp i b.
Proof.
  intros H. unfold rho_at, weight_at.
  pose proof (exp_pos (at2 tlp i b - at2 blp i b)).
  apply Rmin_glb; lra.
Qed.

Lemma c_at_nonneg self tlp blp i b : 0 <= VTrace.cis self -> 0 <= c_at self tlp blp i b.
Proof.
  intros H. unfold c_at, weight_at.
  pose proof (exp_pos (at2 tlp i b - at2 blp i b)).
  apply Rmin_glb; lra.
Qed.

(** X8. With a discount factor and truncation levels that are not
    negative, the targets are monotone in the rewards: raising rewards
    never lowers a target. *)
Theorem forward_monotone_in_rewards self tv rw rw' tlp blp T B :
  valid_segment T B tv rw tlp blp ->
  valid_segment T B tv rw' tlp blp ->
  0 <= VTrace.discount_factor self ->
  0 <= VTrace.rho self ->
  0 <= VTrace.cis self ->
  (forall i b, (i < T)%nat -> (b < B)%nat -> at2 rw i b <= at2 rw' i b) ->
  exists v rhos v' rhos',
    VTrace.forward self tv rw tlp blp = Ok (v, rhos)
    /\ VTrace.forward self tv rw' tlp blp = Ok (v', rhos')
    /\ forall i b, (i <= T)%nat -> (b < B)%nat -> at2 v i b <= at2 v' i b.
Proof.
  intros Hseg Hseg' Hg Hrho Hcis Hle.
  destruct (forward_elem self tv rw tlp blp T B Hseg)
    as (v & rhos & Efw & _ & _ & Hlast & _ & Hrec).
  destruct (forward_elem self tv rw' tlp blp T B Hseg')
    as (v' & rhos' & Efw' & _ & _ & Hlast' & _ & Hrec').
  exists v, rhos, v', rhos'. split_and!; [done|done|].
  intros i b Hi Hb. revert i Hi.
  apply (backward_induction (fun i => at2 v i b <= at2 v' i b)).
  - rewrite Hlast, Hlast'. lra.
  - intros i Hi IH. rewrite Hrec, Hrec' by done. unfold delta_at, td_at.
    pose proof (rho_at_nonneg self tlp blp i b Hrho) as Hr.
    pose proof (c_at_nonneg self tlp blp i b Hcis) as Hc.
    pose proof (Hle i b Hi Hb) as Hrw.
    assert (0 <= VTrace.discount_factor self * c_at self tlp blp i b) as Hgc
      by by apply Rmult_le_pos.
    nra.
Qed.

Lemma forward_monotone_in_rewards_witness :
  exists v rhos v' rhos',
    VTrace.forward ex_self ex_target_value (Tensor 1 [[0]; [1]])
      ex_log_policy ex_log_policy = Ok (v, rhos)
    /\ VTrace.forward ex_self ex_target_value ex_rewards
         ex_log_policy ex_log_policy = Ok (v', rhos')
    /\ forall i b, (i <= 2)%nat -> (b < 1)%nat -> at2 v i b <= at2 v' i b.
Proof.
  apply (forward_monotone_in_rewards ex_self ex_target_value (Tensor 1 [[0]; [1]])
           ex_rewards ex_log_policy ex_log_policy 2 1);
    [concrete_shape|concrete_shape|simpl; lra|simpl; lra|simpl; lra|].
  intros i b Hi Hb. replace b with 0%nat by lia.
  destruct i as [|[|i]]; [| |lia]; unfold at2, row_at; simpl; lra.
Defined.

(** X9. For fixed policies the targets are linear in the value estimates
    and the rewards taken together: the targets of
    [a * (V1, r1) + c * (V2, r2)] are [a * v1 + c * v2]. *)
Theorem forward_linear self tv1 rw1 tv2 rw2 tv3 rw3 tlp blp T B (a c : R) :
  valid_segment T B tv1 rw1 tlp blp ->
  valid_segment T B tv2 rw2 tlp blp ->
  valid_segment T B tv3 rw3 tlp blp ->
  (forall i b, (i <= T)%nat -> (b < B)%nat ->
     at2 tv3 i b = a * at2 tv1 i b + c * at2 tv2 i b) ->
  (forall i b, (i < T)%nat -> (b < B)%nat ->
     at2 rw3 i b = a * at2 rw1 i b + c * at2 rw2 i b) ->
  exists v1 v2 v3 rhos,
    VTrace.forward self tv1 rw1 tlp blp = Ok (v1, rhos)
    /\ VTrace.forward self tv2 rw2 tlp blp = Ok (v2, rhos)
    /\ VTrace.forward self tv3 rw3 tlp blp = Ok (v3, rhos)
    /\ forall i b, (i <= T)%nat -> (b < B)%nat ->
        at2 v3 i b = a * at2 v1 i b + c * at2 v2 i b.
Proof.
  intros Hseg1 Hseg2 Hseg3 Htv Hrw.
  destruct (forward_ok self tv1 rw1 tlp blp T B Hseg1)
    as (v1 & w1 & Ew1 & _ & _ & Efw1 & _).
  destruct (forward_ok self tv2 rw2 tlp blp T B Hseg2)
    as (v2 & w2 & Ew2 & _ & _ & Efw2 & _).
  destruct (forward_ok self tv3 rw3 tlp blp T B Hseg3)
    as (v3 & w3 & Ew3 & _ & _ & Efw3 & _).
  assert (w2 = w1) as -> by congruence. assert (w3 = w1) as -> by congruence.
  destruct (forward_elem self tv1 rw1 tlp blp T B Hseg1)
    as (v1' & r1 & E1 & _ & _ & Hlast1 & _ & Hrec1).
  destruct (forward_elem self tv2 rw2 tlp blp T B Hseg2)
    as (v2' & r2 & E2 & _ & _ & Hlast2 & _ & Hrec2).
  destruct (forward_elem self tv3 rw3 tlp blp T B Hseg3)
    as (v3' & r3 & E3 & _ & _ & Hlast3 & _ & Hrec3).
  assert (v1' = v1) as -> by congruence. assert (v2' = v2) as -> by congruence.
  assert (v3' = v3) as -> by congruence.
  exists v1, v2, v3, (VTrace.truncate (VTrace.rho self) w1).
  split_and!; [done..|].
  intros i b Hi Hb. revert i Hi.
  apply (backward_induction
           (fun i => at2 v3 i b = a * at2 v1 i b + c * at2 v2 i b)).
  - rewrite Hlast1, Hlast2, Hlast3. apply Htv; [lia|done].
  - intros i Hi IH. rewrite Hrec1, Hrec2, Hrec3, IH by done.
    unfold delta_at, td_at.
    rewrite (Hrw i b), (Htv i b), (Htv (i + 1)%nat b) by (done || lia). ring.
Qed.

Lemma forward_linear_witness :
  exists v1 v2 v3 rhos,
    VTrace.forward ex_self ex_target_value ex_rewards ex_log_policy ex_log_policy
    = Ok (v1, rhos)
    /\ VTrace.forward ex_self (Tensor 1 [[1]; [2]; [3]]) (Tensor 1 [[0]; [1]])
         ex_log_policy ex_log_policy = Ok (v2, rhos)
    /\ VTrace.forward ex_self (Tensor 1 [[3]; [6]; [9]]) (Tensor 1 [[2]; [5]])
         ex_log_policy ex_log_policy = Ok (v3, rhos)
    /\ forall i b, (i <= 2)%nat -> (b < 1)%nat ->
        at2 v3 i b = 2 * at2 v1 i b + 3 * at2 v2 i b.
Proof.
  apply (forward_linear ex_self ex_target_value ex_rewards
           (Tensor 1 [[1]; [2]; [3]]) (Tensor 1 [[0]; [1]])
           (Tensor 1 [[3]; [6]; [9]]) (Tensor 1 [[2]; [5]])
           ex_log_policy ex_log_policy 2 1 2 3);
    [concrete_shape|concrete_shape|concrete_shape| |].
  - intros i b Hi Hb. replace b with 0%nat by lia.
    destruct i as [|[|[|i]]]; [| | |lia]; unfold at2, row_at; simpl; lra.
  - intros i b Hi Hb. replace b with 0%nat by lia.
    destruct i as [|[|i]]; [| |lia]; unfold at2, row_at; simpl; lra.
Defined.

(** ** [Impala.loss] *)

Lemma tensor_op_time_mismatch (f : R -> R -> R) x y T :
  size0 x = T -> size0 y = S T -> (2 <= T)%nat ->
  tensor_op f x y = Raise RuntimeError.
Proof.
  intros Hx Hy HT. unfold tensor_op, broadcast_dim. rewrite Hx, Hy.
  assert ((T =? S T)%nat = false) as -> by (apply Nat.eqb_neq; lia).
  assert ((T =? 1)%nat = false) as -> by (apply Nat.eqb_neq; lia).
  assert ((S T =? 1)%nat = false) as -> by (apply Nat.eqb_neq; lia).
  reflexivity.
Qed.

(** X11. [Impala.loss] drops the bootstrap step of [target_log_probs]
    but passes [behaviour_log_probs] whole: when both have the [T + 1]
    time steps of the segment and [T >= 2], their difference cannot be
    broadcast and the call raises [RuntimeError]. *)
Theorem loss_full_length_behaviour_log_probs {Frame Actions Mask Hidden : Type}
    (self : @Impala.t Frame Actions Mask Hidden) obs acts mask hxs
    rw blp tlp ent tv T :
  length obs = (Impala.sequence_length self + 1)%nat ->
  Impala.model self obs hxs mask acts = Ok (tlp, ent, tv) ->
  size0 tlp = S T -> size0 blp = S T -> (2 <= T)%nat ->
  Impala.loss self obs acts mask hxs rw blp = Raise RuntimeError.
Proof.
  intros Hlen Hmodel Htlp Hblp HT. unfold Impala.loss.
  rewrite Hlen, Nat.eqb_refl, Hmodel. cbn [py_assert mbind result_bind].
  unfold VTrace.forward, VTrace.importance_sampling.
  rewrite (tensor_op_time_mismatch _ _ _ T); [done| |done..].
  unfold drop_last, size0 in *. cbn [rows]. rewrite length_take. lia.
Qed.

Lemma loss_full_length_behaviour_log_probs_witness :
  Impala.loss ex_impala [tt; tt; tt] tt tt tt ex_rewards ex_log_probs
  = Raise RuntimeError.
Proof.
  apply (loss_full_length_behaviour_log_probs ex_impala [tt; tt; tt] tt tt tt
           ex_rewards ex_log_probs ex_log_probs ex_entropy ex_target_value 2);
    [reflexivity|reflexivity|reflexivity|reflexivity|lia].
Defined.

Lemma big_sum_nonneg n f : (forall k, (k < n)%nat -> 0 <= f k) -> 0 <= big_sum n f.
Proof.
  revert f. induction n as [|n IH]; intros f H.
  - rewrite big_sum_0. lra.
  - rewrite big_sum_S_first.
    pose proof (H 0%nat ltac:(lia)).
    pose proof (IH (fun k => f (S k)) ltac:(intros k Hk; apply H; lia)). lra.
Qed.

Lemma big_sum_nonneg_eq_0 n f :
  (forall k, (k < n)%nat -> 0 <= f k) -> big_sum n f = 0 ->
  forall k, (k < n)%nat -> f k = 0.
Proof.
  revert f. induction n as [|n IH]; intros f H E k Hk; [lia|].
  rewrite big_sum_S_first in E.
  pose proof (H 0%nat ltac:(lia)) as H0.
  assert (forall j, (j < n)%nat -> 0 <= f (S j)) as Hrest
    by (intros j Hj; apply H; lia).
  pose proof (big_sum_nonneg n _ Hrest) as Hsum.
  destruct k as [|k]; [lra|].
  apply (IH (fun j => f (S j))); [done|lra|lia].
Qed.

(** X12. The value loss of two tensors of one shape is never negative,
    and it is 0 exactly when the tensors agree at every time step and
    batch position. *)
Theorem loss_value_nonneg v tv T B :
  has_shape v T B -> has_shape tv T B ->
  exists l, Impala.loss_value v tv = Ok l
    /\ 0 <= l
    /\ (l = 0 <-> forall i b, (i < T)%nat -> (b < B)%nat -> at2 v i b = at2 tv i b).
Proof.
  intros Hv Htv. eexists. split; [by apply loss_value_ok|].
  assert (forall i b, 0 <= (at2 v i b - at2 tv i b) ^ 2) as Hsq
    by (intros; apply pow2_ge_0).
  assert (forall i, 0 <= big_sum B (fun b => (at2 v i b - at2 tv i b) ^ 2)) as Hrow
    by (intros; apply big_sum_nonneg; intros; apply Hsq).
  split; [|split].
  - apply big_sum_nonneg. intros. apply Hrow.
  - intros E i b Hi Hb.
    pose proof (big_sum_nonneg_eq_0 _ _ (fun k _ => Hrow k) E i Hi) as Ei.
    pose proof (big_sum_nonneg_eq_0 _ _ (fun k _ => Hsq i k) Ei b Hb) as Eb.
    simpl in Eb. nra.
  - intros E. apply big_sum_zero. intros i Hi. apply big_sum_zero. intros b Hb.
    rewrite E by done. simpl. lra.
Qed.

Lemma loss_value_nonneg_witness :
  exists l, Impala.loss_value ex_rewards ex_log_policy = Ok l
    /\ 0 <= l
    /\ (l = 0 <-> forall i b, (i < 2)%nat -> (b < 1)%nat ->
                   at2 ex_rewards i b = at2 ex_log_policy i b).
Proof.
  apply (loss_value_nonneg ex_rewards ex_log_policy 2 1); concrete_shape.
Defined.
